(** * cputemp2rgb: CPU temperature to motherboard RGB colour

    A shallow embedding of [cputemp2rgb.py] and the properties of its
    colour model, sensor reader and thermal loop.

    Number model.  The program computes on Python floats.  The properties
    below are stated for real inputs, so a Python float is modelled as a
    real number ([R]): comparison, addition, subtraction, multiplication
    and division are the exact ones, [numpy.log] is [ln] and [**] is
    [Rpower] on the domain where they yield a real number.  Rounding,
    infinities and NaN are outside this model. *)

From Stdlib Require Import Reals Lra Lia ZArith List String Sorted.
Import ListNotations.

Open Scope R_scope.

(** ** Errors and the error monad *)

(** The two ways a call can fail to produce a value: [exit(msg)]
    ([SystemExit]), and an arithmetic operation that yields no real number
    (an exception, a complex number, an infinity or NaN). *)
Inductive error : Type :=
  | SystemExit (msg : string)
  | NotReal.

Definition result (A : Type) : Type := (error + A)%type.

Definition ret {A : Type} (a : A) : result A := inr a.

Definition bind {A B : Type} (m : result A) (k : A -> result B) : result B :=
  match m with
  | inl e => inl e
  | inr a => k a
  end.

Notation "x <- m ;; k" := (bind m (fun x => k))
  (at level 61, m at next level, right associativity).

(** ** Library operations on floats *)

(** [numpy.log]: a real number exactly on positive arguments (it gives
    [-inf] at [0.0] and [nan] below). *)
Definition log (x : R) : result R :=
  if Rlt_dec 0 x then ret (ln x) else inl NotReal.

(** [x ** y] for floats: a real number on a positive base (a zero base
    with a negative exponent raises [ZeroDivisionError], a negative base
    with a fractional exponent gives a complex number). *)
Definition pow (x y : R) : result R :=
  if Rlt_dec 0 x then ret (Rpower x y) else inl NotReal.

(** [int(num)] on a float: truncation toward zero. *)
Definition int (num : R) : Z :=
  if Rle_dec 0 num then Int_part num else (- Int_part (- num))%Z.

(** ** The sensor reader *)

(** One entry of [psutil.sensors_temperatures()]: the named tuple
    [shwtemp(label, current, high, critical)]. *)
Record shwtemp : Type := mk_shwtemp {
  label : string;
  current : R;
  high : option R;
  critical : option R
}.

(** The dictionary returned by [sensors_temperatures()], in iteration
    order: chip name to the list of its entries. *)
Definition sensors : Type := list (string * list shwtemp).

Definition is_cpu_chip (name : string) : bool :=
  (String.eqb name "coretemp" || String.eqb name "k10temp")%bool.

(** The inner [for entry in entries] loop of [cputemp]. *)
Definition scan_entries (entries : list shwtemp) (temp : R) : R :=
  fold_left
    (fun temp entry =>
       if Rgt_dec (current entry) temp then current entry else temp)
    entries temp.

(** The outer [for name, entries in temps.items()] loop of [cputemp]. *)
Definition scan_groups (temps : sensors) (temp : R) : R :=
  fold_left
    (fun temp group =>
       let '(name, entries) := group in
       if is_cpu_chip name then scan_entries entries temp else temp)
    temps temp.

Definition cputemp (temps : sensors) : result R :=
  match temps with
  | [] => inl (SystemExit "Unable to read temperature sensors!")
  | _ :: _ => ret (scan_groups temps 0)
  end.

(** ** The colour model *)

Definition c8bit (num : R) : Z :=
  if Rlt_dec num 0 then 0%Z
  else if Rgt_dec num 255 then 255%Z
  else int num.

(** The guard [if temp <= 0.0: temp = 0.1] shared by [r], [g] and [b]. *)
Definition floor_temp (temp : R) : R :=
  if Rle_dec temp 0 then 0.1 else temp.

Definition r (temp : R) : result Z :=
  let temp := floor_temp temp in
  red <- (if Rle_dec temp 66 then ret 255
          else
            let red := temp - 60 in
            p <- pow red (-0.1332047592) ;;
            ret (329.698727446 * p)) ;;
  ret (c8bit red).

Definition g (temp : R) : result Z :=
  let temp := floor_temp temp in
  green <- (if Rle_dec temp 66 then
              let green := temp in
              l <- log green ;;
              ret (99.4708025861 * l - 161.1195681661)
            else
              let green := temp - 60 in
              p <- pow green (-0.0755148492) ;;
              ret (288.1221695283 * p)) ;;
  ret (c8bit green).

Definition b (temp : R) : result Z :=
  let temp := floor_temp temp in
  blue <- (if Rge_dec temp 66 then ret 255
           else if Rle_dec temp 19 then ret 0
           else
             let blue := temp - 10 in
             l <- log blue ;;
             ret (138.5177312231 * l - 305.0447927307)) ;;
  ret (c8bit blue).

(** [RGBColor(red, green, blue)] of [openrgb.utils]. *)
Record RGBColor : Type := mk_RGBColor {
  red : Z;
  green : Z;
  blue : Z
}.

(** The argument of [set_color] in the loop:
    [RGBColor(r(output), g(output), b(output))]. *)
Definition ColorModel (output : R) : result RGBColor :=
  rv <- r output ;;
  gv <- g output ;;
  bv <- b output ;;
  ret (mk_RGBColor rv gv bv).

(** ** The thermal loop *)

(** The module-level configuration constant. *)
Definition COLORSHIFT : R := 0.

(** The two variables carried from one iteration to the next. *)
Record loop_state : Type := mk_state {
  temp : R;
  offset : R
}.

(** One iteration of [while True] in [cputemp2rgb], up to and including
    the [set_color] call; [temps] is what [sensors_temperatures()] returns
    in this iteration and [colorshift] the configured [COLORSHIFT].  The
    result is the state after the iteration and the colour written. *)
Definition loop_body (colorshift : R) (st : loop_state) (temps : sensors)
  : result (loop_state * RGBColor) :=
  let offset' := if Rlt_dec (temp st) (offset st) then temp st else offset st in
  sample <- cputemp temps ;;
  let temp' := (temp st + sample) / 2 in
  let output := temp' - offset' + colorshift in
  color <- ColorModel output ;;
  ret (mk_state temp' offset', color).

(** The loop, run on the successive sensor snapshots [reads]: the states
    and colours of the iterations completed, and the error that stopped
    the loop if one did ([None]: every snapshot was consumed and the loop
    is still running). *)
Fixpoint loop (colorshift : R) (st : loop_state) (reads : list sensors)
  : list (loop_state * RGBColor) * option error :=
  match reads with
  | [] => ([], None)
  | temps :: rest =>
      match loop_body colorshift st temps with
      | inl e => ([], Some e)
      | inr (st', color) =>
          let (trace, stop) := loop colorshift st' rest in
          ((st', color) :: trace, stop)
      end
  end.

(** [cputemp2rgb] after the device has been found and set to
    [RGBColor(0, 0, 0)]: [offset = 20], [temp = cputemp()], then the loop.
    [first] is the snapshot read before the loop. *)
Definition cputemp2rgb (first : sensors) (reads : list sensors)
  : list (loop_state * RGBColor) * option error :=
  let offset := 20 in
  match cputemp first with
  | inl e => ([], Some e)
  | inr temp => loop COLORSHIFT (mk_state temp offset) reads
  end.

(** ** The loop and the calls that end an iteration *)

(** Why the loop stopped: an error of the iteration's own computation
    ([cputemp] or a colour function), or an exception raised by
    [motherboard.set_color] or by [sleep], the two calls that end an
    iteration and that the loop does not guard. *)
Inductive loop_error : Type :=
  | Computation (e : error)
  | DeviceFailure.

(** The loop run on the successive iterations' inputs: the sensor snapshot
    read in the iteration, and whether its [set_color] and [sleep] calls
    complete ([true]) or raise ([false]).  The colour of an iteration is
    in the trace when these calls completed. *)
Fixpoint loop_io (colorshift : R) (st : loop_state)
         (ios : list (sensors * bool))
  : list (loop_state * RGBColor) * option loop_error :=
  match ios with
  | [] => ([], None)
  | (temps, completes) :: rest =>
      match loop_body colorshift st temps with
      | inl e => ([], Some (Computation e))
      | inr (st', color) =>
          if completes then
            let (trace, stop) := loop_io colorshift st' rest in
            ((st', color) :: trace, stop)
          else ([], Some DeviceFailure)
      end
  end.

(** ** Vocabulary of the properties *)

(** [x] is a "current" reading reported by a group named [coretemp] or
    [k10temp]. *)
Definition reported (temps : sensors) (x : R) : Prop :=
  exists name entries entry,
    In (name, entries) temps /\
    (name = "coretemp"%string \/ name = "k10temp"%string) /\
    In entry entries /\ current entry = x.

(** [m] is the maximum of the values satisfying [P]. *)
Definition is_max_of (P : R -> Prop) (m : R) : Prop :=
  P m /\ forall x, P x -> x <= m.

(** No group of [temps] is named [coretemp] or [k10temp]. *)
Definition no_cpu_group (temps : sensors) : Prop :=
  forall name entries,
    In (name, entries) temps ->
    name <> "coretemp"%string /\ name <> "k10temp"%string.

(** How the state after an iteration relates to the state before it, as
    far as [offset] goes: it did not grow, it is not above the [temp] it
    was compared with, and it is one of the two. *)
Definition offset_step (s s' : loop_state) : Prop :=
  offset s' <= offset s /\ offset s' <= temp s /\
  (offset s' = offset s \/ offset s' = temp s).

(** The states an execution goes through, from the initial one. *)
Definition states (st : loop_state) (trace : list (loop_state * RGBColor))
  : list loop_state :=
  st :: map fst trace.

(** A snapshot with one [coretemp] entry reading [t]. *)
Definition one_core (t : R) : sensors :=
  [("coretemp"%string, [mk_shwtemp "Core 0" t None None])].

(** Pure white. *)
Definition white : RGBColor := mk_RGBColor 255 255 255.

(** Pure red. *)
Definition pure_red : RGBColor := mk_RGBColor 255 0 0.

(** The running minima of [o] followed by the values [ts]: [o], then the
    least of [o] and the first value, and so on. *)
Fixpoint running_mins (o : R) (ts : list R) : list R :=
  o :: match ts with
       | [] => []
       | t :: ts' => running_mins (Rmin o t) ts'
       end.

(** A snapshot with a single group that is not a CPU chip. *)
Definition no_cpu_snapshot : sensors :=
  [("acpitz"%string, [mk_shwtemp "" 30 None None])].

(** Every snapshot of [reads] makes [cputemp] return [s]. *)
Definition constant_reads (s : R) (reads : list sensors) : Prop :=
  Forall (fun temps => cputemp temps = ret s) reads.

(** Fixed-point arithmetic with twelve decimals, used to bound [exp] and
    [ln]: squaring rounded up and rounded down, and their iteration. *)
Definition scale : Z := 1000000000000.
Definition sq_up (c : Z) : Z := ((c * c + (scale - 1)) / scale)%Z.
Definition sq_down (c : Z) : Z := ((c * c) / scale)%Z.
Fixpoint iter_sq (f : Z -> Z) (k : nat) (c : Z) : Z :=
  match k with
  | O => c
  | S k' => iter_sq f k' (f c)
  end.

(** ** Truncation and the clamp *)

Lemma int_nonneg (num : R) :
  0 <= num -> int num = Int_part num.
Proof.
  intros H. unfold int. destruct (Rle_dec 0 num) as [_ | n]; [reflexivity | contradiction].
Qed.

(** [Int_part] is the floor: the greatest integer not above its argument. *)
Lemma Int_part_bounds (x : R) :
  IZR (Int_part x) <= x < IZR (Int_part x) + 1.
Proof.
  destruct (base_Int_part x) as [Hlo Hhi]. split; lra.
Qed.

Lemma Int_part_ge (x : R) (z : Z) :
  IZR z <= x -> (z <= Int_part x)%Z.
Proof.
  intros H. destruct (Int_part_bounds x) as [_ Hhi].
  assert (Hlt : IZR z < IZR (Int_part x + 1)) by (rewrite plus_IZR; lra).
  apply lt_IZR in Hlt. lia.
Qed.

Lemma Int_part_le (x : R) (z : Z) :
  x <= IZR z -> (Int_part x <= z)%Z.
Proof.
  intros H. destruct (Int_part_bounds x) as [Hlo _].
  apply le_IZR. lra.
Qed.

Lemma Int_part_mono (x y : R) :
  x <= y -> (Int_part x <= Int_part y)%Z.
Proof.
  intros H. apply Int_part_ge.
  destruct (Int_part_bounds x) as [Hlo _]. lra.
Qed.

Lemma c8bit_range (num : R) :
  (0 <= c8bit num <= 255)%Z.
Proof.
  unfold c8bit.
  destruct (Rlt_dec num 0) as [Hneg | Hnn]; [lia |].
  destruct (Rgt_dec num 255) as [Hbig | Hsmall]; [lia |].
  rewrite int_nonneg by lra. split.
  - apply Int_part_ge. simpl. lra.
  - apply Int_part_le. lra.
Qed.

Lemma c8bit_mono (x y : R) :
  x <= y -> (c8bit x <= c8bit y)%Z.
Proof.
  intros H. pose proof (c8bit_range x) as Hx. pose proof (c8bit_range y) as Hy.
  unfold c8bit in *.
  destruct (Rlt_dec x 0) as [Hx0 | Hx0]; [lia |].
  destruct (Rlt_dec y 0) as [Hy0 | Hy0]; [lra |].
  destruct (Rgt_dec y 255) as [Hy1 | Hy1]; [lia |].
  destruct (Rgt_dec x 255) as [Hx1 | Hx1]; [lra |].
  rewrite !int_nonneg by lra. apply Int_part_mono, H.
Qed.

Lemma c8bit_saturates (num : R) :
  255 <= num -> c8bit num = 255%Z.
Proof.
  intros H. pose proof (c8bit_range num) as Hr.
  unfold c8bit in *.
  destruct (Rlt_dec num 0) as [Hneg | Hnn]; [lra |].
  destruct (Rgt_dec num 255) as [Hbig | Hsmall]; [reflexivity |].
  assert (num = 255) as -> by lra.
  rewrite int_nonneg in * by lra.
  assert (255 <= Int_part 255)%Z by (apply Int_part_ge; lra). lia.
Qed.

Lemma c8bit_below (num : R) (z : Z) :
  (0 < z)%Z -> num < IZR z -> (c8bit num < z)%Z.
Proof.
  intros Hz H. unfold c8bit.
  destruct (Rlt_dec num 0) as [Hneg | Hnn]; [lia |].
  destruct (Rgt_dec num 255) as [Hbig | Hsmall].
  - apply lt_IZR. lra.
  - rewrite int_nonneg by lra. destruct (Int_part_bounds num) as [Hlo _].
    apply lt_IZR. lra.
Qed.

Example c8bit_ex1 : c8bit 255.999 = 255%Z.
Proof. apply c8bit_saturates. lra. Qed.

Example c8bit_ex2 : c8bit (-0.5) = 0%Z.
Proof.
  unfold c8bit. destruct (Rlt_dec (-0.5) 0) as [_ | n]; [reflexivity | exfalso; lra].
Qed.

(** ** The sensor reader: what the two loops compute *)

Lemma is_cpu_chip_spec (name : string) :
  is_cpu_chip name = true <->
  (name = "coretemp"%string \/ name = "k10temp"%string).
Proof.
  unfold is_cpu_chip. rewrite Bool.orb_true_iff, !String.eqb_eq. tauto.
Qed.

Lemma scan_entries_spec (entries : list shwtemp) (t : R) :
  t <= scan_entries entries t /\
  (forall entry, In entry entries -> current entry <= scan_entries entries t) /\
  (scan_entries entries t = t \/
   exists entry, In entry entries /\ current entry = scan_entries entries t).
Proof.
  unfold scan_entries. revert t.
  induction entries as [| e entries IH]; intros t; simpl.
  - split; [lra |]. split; [intros ? [] | now left].
  - set (t' := if Rgt_dec (current e) t then current e else t).
    assert (Ht' : t <= t' /\ current e <= t' /\ (t' = t \/ t' = current e)).
    { subst t'. destruct (Rgt_dec (current e) t); repeat split; try lra; auto. }
    destruct Ht' as (Htt' & Het' & Hcase).
    destruct (IH t') as (Hge & Hall & Hin).
    split; [lra |]. split.
    + intros entry [<- | Hentry]; [lra | now apply Hall].
    + destruct Hin as [Heq | (entry & Hentry & Heq)].
      * rewrite Heq. destruct Hcase as [-> | ->]; [now left |].
        right. exists e. split; [now left | reflexivity].
      * right. exists entry. split; [now right | exact Heq].
Qed.

Lemma scan_groups_spec (temps : sensors) (t : R) :
  t <= scan_groups temps t /\
  (forall x, reported temps x -> x <= scan_groups temps t) /\
  (scan_groups temps t = t \/ reported temps (scan_groups temps t)).
Proof.
  unfold scan_groups. revert t.
  induction temps as [| [name entries] temps IH]; intros t; simpl.
  - split; [lra |]. split; [| now left].
    intros x (? & ? & ? & [] & _).
  - set (t' := if is_cpu_chip name then scan_entries entries t else t).
    destruct (IH t') as (Hge & Hall & Hin).
    destruct (scan_entries_spec entries t) as (Ege & Eall & Ein).
    assert (Htt' : t <= t').
    { subst t'. destruct (is_cpu_chip name); lra. }
    split; [lra |]. split.
    + intros x (n & es & e & [Hhd | Htl] & Hname & He & Hx).
      * inversion Hhd; subst n es. apply is_cpu_chip_spec in Hname.
        subst t'. rewrite Hname in *. subst x.
        specialize (Eall e He). lra.
      * apply Hall. exists n, es, e. auto.
    + destruct Hin as [Heq | (n & es & e & Hg & Hname & He & Hx)].
      * rewrite Heq. subst t'. destruct (is_cpu_chip name) eqn:Hchip; [| now left].
        destruct Ein as [-> | (e & He & Hx)]; [now left |].
        right. exists name, entries, e. apply is_cpu_chip_spec in Hchip.
        repeat split; auto. now left.
      * right. exists n, es, e. repeat split; auto. now right.
Qed.

Lemma scan_groups_no_match (temps : sensors) (t : R) :
  (forall name entries, In (name, entries) temps -> is_cpu_chip name = false) ->
  scan_groups temps t = t.
Proof.
  unfold scan_groups. revert t.
  induction temps as [| [name entries] temps IH]; intros t Hno; simpl.
  - reflexivity.
  - rewrite (Hno name entries) by now left.
    apply IH. intros n es Hin. apply (Hno n es). now right.
Qed.

Lemma cputemp_one_core (t : R) :
  cputemp (one_core t) = ret (if Rgt_dec t 0 then t else 0).
Proof. reflexivity. Qed.

Lemma reported_one_core (t x : R) : reported (one_core t) x <-> x = t.
Proof.
  unfold reported, one_core. split.
  - intros (name & entries & entry & [Hg | []] & _ & He & Hx).
    inversion Hg; subst name entries. destruct He as [<- | []].
    simpl in Hx. auto.
  - intros ->. do 3 eexists. split; [now left |].
    split; [now left |]. split; [now left | reflexivity].
Qed.

(** ** The colour model: branch by branch *)

Lemma floor_temp_pos (x : R) : 0 < floor_temp x.
Proof.
  unfold floor_temp. destruct (Rle_dec x 0); lra.
Qed.

Lemma floor_temp_cold (x : R) : x <= 0 -> floor_temp x = 0.1.
Proof.
  intros H. unfold floor_temp. destruct (Rle_dec x 0); [reflexivity | contradiction].
Qed.

Lemma floor_temp_warm (x : R) : 0 < x -> floor_temp x = x.
Proof.
  intros H. unfold floor_temp. destruct (Rle_dec x 0); [lra | reflexivity].
Qed.

Lemma log_pos (x : R) : 0 < x -> log x = ret (ln x).
Proof.
  intros H. unfold log. destruct (Rlt_dec 0 x); [reflexivity | contradiction].
Qed.

Lemma pow_pos (x y : R) : 0 < x -> pow x y = ret (Rpower x y).
Proof.
  intros H. unfold pow. destruct (Rlt_dec 0 x); [reflexivity | contradiction].
Qed.

Lemma r_low (x : R) : floor_temp x <= 66 -> r x = ret 255%Z.
Proof.
  intros H. unfold r. destruct (Rle_dec (floor_temp x) 66); [| contradiction].
  simpl. rewrite c8bit_saturates by lra. reflexivity.
Qed.

Lemma r_high (x : R) :
  66 < x ->
  r x = ret (c8bit (329.698727446 * Rpower (x - 60) (-0.1332047592))).
Proof.
  intros H. unfold r. rewrite floor_temp_warm by lra.
  destruct (Rle_dec x 66); [lra |].
  rewrite pow_pos by lra. reflexivity.
Qed.

Lemma g_low (x : R) :
  floor_temp x <= 66 ->
  g x = ret (c8bit (99.4708025861 * ln (floor_temp x) - 161.1195681661)).
Proof.
  intros H. unfold g. destruct (Rle_dec (floor_temp x) 66); [| contradiction].
  rewrite log_pos by apply floor_temp_pos. reflexivity.
Qed.

Lemma g_high (x : R) :
  66 < x ->
  g x = ret (c8bit (288.1221695283 * Rpower (x - 60) (-0.0755148492))).
Proof.
  intros H. unfold g. rewrite floor_temp_warm by lra.
  destruct (Rle_dec x 66); [lra |].
  rewrite pow_pos by lra. reflexivity.
Qed.

Lemma b_high (x : R) : 66 <= x -> b x = ret 255%Z.
Proof.
  intros H. unfold b. rewrite floor_temp_warm by lra.
  destruct (Rge_dec x 66); [| lra].
  simpl. rewrite c8bit_saturates by lra. reflexivity.
Qed.

Lemma b_low (x : R) : x <= 19 -> b x = ret 0%Z.
Proof.
  intros H. unfold b.
  assert (Hf : floor_temp x <= 19).
  { unfold floor_temp. destruct (Rle_dec x 0); lra. }
  destruct (Rge_dec (floor_temp x) 66); [lra |].
  destruct (Rle_dec (floor_temp x) 19); [| contradiction].
  simpl. f_equal. pose proof (c8bit_range 0) as Hr.
  assert (c8bit 0 < 1)%Z by (apply c8bit_below; [lia | lra]). lia.
Qed.

Lemma b_mid (x : R) :
  19 < x < 66 ->
  b x = ret (c8bit (138.5177312231 * ln (x - 10) - 305.0447927307)).
Proof.
  intros H. unfold b. rewrite floor_temp_warm by lra.
  destruct (Rge_dec x 66); [lra |].
  destruct (Rle_dec x 19); [lra |].
  rewrite log_pos by lra. reflexivity.
Qed.

(** Every channel yields a value, for every input. *)
Lemma r_total (x : R) : exists v, r x = ret v /\ (0 <= v <= 255)%Z.
Proof.
  destruct (Rle_dec (floor_temp x) 66) as [H | H].
  - exists 255%Z. split; [now apply r_low | lia].
  - assert (66 < x).
    { unfold floor_temp in H. destruct (Rle_dec x 0); lra. }
    eexists. split; [now apply r_high | apply c8bit_range].
Qed.

Lemma g_total (x : R) : exists v, g x = ret v /\ (0 <= v <= 255)%Z.
Proof.
  destruct (Rle_dec (floor_temp x) 66) as [H | H].
  - eexists. split; [now apply g_low | apply c8bit_range].
  - assert (66 < x).
    { unfold floor_temp in H. destruct (Rle_dec x 0); lra. }
    eexists. split; [now apply g_high | apply c8bit_range].
Qed.

Lemma b_total (x : R) : exists v, b x = ret v /\ (0 <= v <= 255)%Z.
Proof.
  destruct (Rle_dec x 19) as [Hlo | Hlo].
  - exists 0%Z. split; [now apply b_low | lia].
  - destruct (Rle_dec 66 x) as [Hhi | Hhi].
    + exists 255%Z. split; [now apply b_high | lia].
    + eexists. split; [apply b_mid; lra | apply c8bit_range].
Qed.

Lemma ColorModel_total (x : R) :
  exists c, ColorModel x = ret c /\
    (0 <= red c <= 255)%Z /\ (0 <= green c <= 255)%Z /\ (0 <= blue c <= 255)%Z.
Proof.
  destruct (r_total x) as (rv & Hr & Hrv).
  destruct (g_total x) as (gv & Hg & Hgv).
  destruct (b_total x) as (bv & Hb & Hbv).
  exists (mk_RGBColor rv gv bv). unfold ColorModel.
  rewrite Hr, Hg, Hb. simpl. auto.
Qed.

(** ** Monotonicity of the library functions *)

Lemma ln_le_compat (x y : R) : 0 < x -> x <= y -> ln x <= ln y.
Proof.
  intros Hx [Hlt | ->]; [left; now apply ln_increasing | right; reflexivity].
Qed.

Lemma exp_le_compat (x y : R) : x <= y -> exp x <= exp y.
Proof.
  intros [Hlt | ->]; [left; now apply exp_increasing | right; reflexivity].
Qed.

(** A power with a negative exponent decreases in its base. *)
Lemma Rpower_neg_antitone (x y a : R) :
  0 < x -> x <= y -> a <= 0 -> Rpower y a <= Rpower x a.
Proof.
  intros Hx Hxy Ha. unfold Rpower. apply exp_le_compat.
  pose proof (ln_le_compat x y Hx Hxy) as Hln.
  assert (0 <= (- a) * (ln y - ln x)) by (apply Rmult_le_pos; lra).
  lra.
Qed.

Lemma exp_3_le_27 : exp 3 <= 27.
Proof.
  replace 3 with (1 + (1 + 1)) by lra. rewrite !exp_plus.
  pose proof exp_le_3 as H3. pose proof (exp_pos 1) as Hp.
  assert (H2 : exp 1 * exp 1 <= 3 * 3) by (apply Rmult_le_compat; lra).
  assert (exp 1 * (exp 1 * exp 1) <= 3 * (3 * 3)).
  { apply Rmult_le_compat; try lra. apply Rmult_le_pos; lra. }
  lra.
Qed.

Lemma ln_ge_3 (x : R) : 27 <= x -> 3 <= ln x.
Proof.
  intros H. rewrite <- (ln_exp 3). apply ln_le_compat; [apply exp_pos |].
  pose proof exp_3_le_27. lra.
Qed.

(** Above 87 the red formula is below 240. *)
Lemma red_formula_bound (x : R) :
  87 <= x -> 329.698727446 * Rpower (x - 60) (-0.1332047592) < 240.
Proof.
  intros H. pose proof (ln_ge_3 (x - 60)) as Hln.
  assert (H3 : 3 <= ln (x - 60)) by (apply Hln; lra).
  unfold Rpower.
  assert (Hle : exp (-0.1332047592 * ln (x - 60)) <= exp (- (0.3996))).
  { apply exp_le_compat. lra. }
  rewrite exp_Ropp in Hle.
  pose proof (exp_ineq1_le 0.3996) as He.
  assert (Hinv : / exp 0.3996 <= / (1 + 0.3996)).
  { apply Rinv_le_contravar; lra. }
  assert (Hq : / (1 + 0.3996) < 0.72).
  { apply (Rmult_lt_reg_l (1 + 0.3996)); [lra |]. rewrite Rinv_r by lra. lra. }
  lra.
Qed.

(** ** The thermal loop: one iteration and whole runs *)

Lemma offset_update_min (t o : R) :
  (if Rlt_dec t o then t else o) = Rmin o t.
Proof.
  unfold Rmin. destruct (Rlt_dec t o), (Rle_dec o t); lra.
Qed.

Lemma loop_body_inv (cs : R) (st st' : loop_state) (temps : sensors)
      (color : RGBColor) :
  loop_body cs st temps = ret (st', color) ->
  exists sample,
    cputemp temps = ret sample /\
    temp st' = (temp st + sample) / 2 /\
    offset st' = Rmin (offset st) (temp st) /\
    ColorModel (temp st' - offset st' + cs) = ret color.
Proof.
  unfold loop_body. intros H.
  destruct (cputemp temps) as [e | sample]; simpl in H; [discriminate |].
  rewrite offset_update_min in H.
  destruct (ColorModel _) as [e | c] eqn:Hc; simpl in H; [discriminate |].
  inversion H; subst st' color. simpl. exists sample. auto.
Qed.

Lemma loop_body_offset_step (cs : R) (st st' : loop_state) (temps : sensors)
      (color : RGBColor) :
  loop_body cs st temps = ret (st', color) -> offset_step st st'.
Proof.
  intros H. apply loop_body_inv in H. destruct H as (_ & _ & _ & Ho & _).
  unfold offset_step. rewrite Ho. unfold Rmin.
  destruct (Rle_dec (offset st) (temp st)); repeat split; auto; lra.
Qed.

Lemma loop_cons (cs : R) (st : loop_state) (temps : sensors)
      (rest : list sensors) :
  (exists st' color,
      loop_body cs st temps = ret (st', color) /\
      fst (loop cs st (temps :: rest)) = (st', color) :: fst (loop cs st' rest)) \/
  fst (loop cs st (temps :: rest)) = [].
Proof.
  simpl. destruct (loop_body cs st temps) as [e | [st' color]] eqn:Hb.
  - now right.
  - left. exists st', color. split; [reflexivity |].
    destruct (loop cs st' rest). reflexivity.
Qed.

Lemma loop_offsets_below (cs : R) (reads : list sensors) :
  forall st, Forall (fun o => o <= offset st) (map offset (map fst (fst (loop cs st reads)))).
Proof.
  induction reads as [| temps rest IH]; intros st.
  - constructor.
  - destruct (loop_cons cs st temps rest) as [(st' & color & Hb & ->) | ->];
      [| constructor].
    apply loop_body_offset_step in Hb. destruct Hb as (Hle & _).
    simpl. constructor; [exact Hle |].
    eapply Forall_impl; [| apply IH]. simpl. intros o Ho. lra.
Qed.

Lemma loop_offsets_sorted (cs : R) (reads : list sensors) :
  forall st,
    StronglySorted (fun o o' => o' <= o)
      (map offset (states st (fst (loop cs st reads)))).
Proof.
  unfold states.
  induction reads as [| temps rest IH]; intros st.
  - simpl. repeat constructor.
  - cbn [map]. constructor; [| apply (loop_offsets_below cs (temps :: rest) st)].
    destruct (loop_cons cs st temps rest) as [(st' & color & Hb & ->) | ->];
      [| constructor].
    apply (IH st').
Qed.

Lemma loop_offset_steps (cs : R) (reads : list sensors) :
  forall st, Sorted offset_step (states st (fst (loop cs st reads))).
Proof.
  unfold states.
  induction reads as [| temps rest IH]; intros st.
  - simpl. repeat constructor.
  - destruct (loop_cons cs st temps rest) as [(st' & color & Hb & ->) | ->].
    + cbn [map fst]. constructor; [apply (IH st') |].
      constructor. eapply loop_body_offset_step, Hb.
    + simpl. repeat constructor.
Qed.

(** The loop stops only on an empty snapshot: on non-empty ones it
    completes one iteration per snapshot. *)
Lemma loop_body_runs (cs : R) (st : loop_state) (temps : sensors) :
  temps <> [] -> exists st' color, loop_body cs st temps = ret (st', color).
Proof.
  intros Hne. unfold loop_body.
  destruct temps as [| group temps]; [contradiction |].
  cbn [cputemp bind ret].
  match goal with
  | |- context [ColorModel ?x] => destruct (ColorModel_total x) as (c & Hc & _)
  end.
  rewrite Hc. simpl. eauto.
Qed.

Lemma loop_runs (cs : R) (reads : list sensors) :
  Forall (fun temps => temps <> []) reads ->
  forall st,
    List.length (fst (loop cs st reads)) = List.length reads /\
    snd (loop cs st reads) = None.
Proof.
  induction 1 as [| temps rest Hne _ IH]; intros st; [split; reflexivity |].
  destruct (loop_body_runs cs st temps Hne) as (st' & color & Hb).
  destruct (IH st') as (Hlen & Hstop).
  cbn [loop]. rewrite Hb. unfold ret.
  destruct (loop cs st' rest) as [trace stop]. cbn [fst snd List.length] in *.
  split; [rewrite Hlen; reflexivity | exact Hstop].
Qed.

(** A run where the CPU cools below the initial guess: the offset stays
    at 20 while [temp] is above it and follows [temp] down afterwards. *)
Example offsets_cooling_run :
  map offset
    (map fst (fst (cputemp2rgb (one_core 45)
                     [one_core 10; one_core 10; one_core 10]))) =
  [20; 20; 18.75].
Proof.
  unfold cputemp2rgb. cbn [one_core cputemp scan_groups scan_entries fold_left
    is_cpu_chip String.eqb Ascii.eqb Bool.eqb orb current ret].
  destruct (Rgt_dec 45 0) as [_ | n]; [| exfalso; lra].
  assert (Hstep : forall st rest,
             exists color,
               fst (loop COLORSHIFT st (one_core 10 :: rest)) =
               (mk_state ((temp st + 10) / 2) (Rmin (offset st) (temp st)), color)
                 :: fst (loop COLORSHIFT
                           (mk_state ((temp st + 10) / 2)
                                     (Rmin (offset st) (temp st))) rest)).
  { intros st rest.
    destruct (loop_cons COLORSHIFT st (one_core 10) rest)
      as [(st' & color & Hb & Heq) | Hnil].
    - apply loop_body_inv in Hb. destruct Hb as (sample & Hsm & Ht & Ho & _).
      rewrite cputemp_one_core in Hsm.
      destruct (Rgt_dec 10 0) as [_ | n]; [| exfalso; lra].
      inversion Hsm; subst sample. exists color. rewrite Heq.
      destruct st' as [t' o']. simpl in Ht, Ho. subst t' o'. reflexivity.
    - exfalso.
      destruct (loop_body_runs COLORSHIFT st (one_core 10)) as (st' & c & Hb);
        [discriminate |].
      cbn [loop] in Hnil. rewrite Hb in Hnil. unfold ret in Hnil.
      destruct (loop COLORSHIFT st' rest). discriminate. }
  destruct (Hstep (mk_state 45 20) [one_core 10; one_core 10]) as (c1 & ->).
  cbn [temp offset].
  destruct (Hstep (mk_state ((45 + 10) / 2) (Rmin 20 45)) [one_core 10])
    as (c2 & ->).
  cbn [temp offset].
  destruct (Hstep (mk_state (((45 + 10) / 2 + 10) / 2)
                            (Rmin (Rmin 20 45) ((45 + 10) / 2))) [])
    as (c3 & ->).
  cbn [temp offset map fst loop].
  assert (H1 : Rmin 20 45 = 20) by (unfold Rmin; destruct (Rle_dec 20 45); lra).
  rewrite H1.
  assert (H2 : Rmin 20 ((45 + 10) / 2) = 20).
  { unfold Rmin. destruct (Rle_dec 20 ((45 + 10) / 2)); lra. }
  rewrite H2.
  assert (H3 : Rmin 20 (((45 + 10) / 2 + 10) / 2) = 18.75).
  { unfold Rmin. destruct (Rle_dec 20 (((45 + 10) / 2 + 10) / 2)); lra. }
  rewrite H3. reflexivity.
Qed.

(** * The properties *)

(** ** Colour model *)

(** C1, as stated, fails: at input 100 (which is at least 66) the red
    channel is not 255; the red formula has dropped below 240 there. *)
Lemma red_not_saturated_at_100 :
  66 <= 100 /\ r 100 <> ret 255%Z /\
  exists v, r 100 = ret v /\ (v < 240)%Z.
Proof.
  split; [lra |].
  assert (Hv : (c8bit (329.698727446 * Rpower (100 - 60) (-0.1332047592)) < 240)%Z).
  { apply c8bit_below; [lia |]. apply red_formula_bound. lra. }
  rewrite r_high by lra. split.
  - intros Heq. inversion Heq as [Hz]. rewrite Hz in Hv. lia.
  - eexists. split; [reflexivity | exact Hv].
Qed.

(** C1 (amended): for every input of at least 66 the blue channel is 255;
    the red channel is 255 for every input of at most 66, so both are 255
    at exactly 66; above 66 the red channel is the clamp of
    329.698727446 * (x - 60) ^ (-0.1332047592). *)
Theorem upper_branch_saturation (x : R) :
  (66 <= x -> b x = ret 255%Z) /\
  (x <= 66 -> r x = ret 255%Z) /\
  (66 < x ->
   r x = ret (c8bit (329.698727446 * Rpower (x - 60) (-0.1332047592)))).
Proof.
  split; [apply b_high |]. split; [| apply r_high].
  intros H. apply r_low. unfold floor_temp. destruct (Rle_dec x 0); lra.
Qed.

Lemma upper_branch_saturation_witness :
  b 66 = ret 255%Z /\ r 66 = ret 255%Z /\
  r 100 = ret (c8bit (329.698727446 * Rpower (100 - 60) (-0.1332047592))).
Proof.
  split; [| split].
  - apply (proj1 (upper_branch_saturation 66)). lra.
  - apply (proj1 (proj2 (upper_branch_saturation 66))). lra.
  - apply (proj2 (proj2 (upper_branch_saturation 100))). lra.
Defined.

(** C5: for every real input, of any sign and magnitude, the colour model
    returns a colour, and each of its three channels is an integer between
    0 and 255. *)
Theorem ColorModel_channels_in_range (x : R) :
  exists c,
    ColorModel x = ret c /\
    (0 <= red c <= 255)%Z /\ (0 <= green c <= 255)%Z /\ (0 <= blue c <= 255)%Z.
Proof. apply ColorModel_total. Qed.

(** C6: the colour model gives exactly the same result at 0 and at 0.1,
    channel by channel: the input is replaced by 0.1 before any branch
    test or formula.  Both are the colour (255, 0, 0). *)
Theorem ColorModel_zero_is_floor :
  ColorModel 0 = ColorModel 0.1 /\
  r 0 = r 0.1 /\ g 0 = g 0.1 /\ b 0 = b 0.1 /\
  ColorModel 0 = ret (mk_RGBColor 255 0 0).
Proof.
  assert (Hfl : floor_temp 0 = floor_temp 0.1).
  { rewrite floor_temp_cold by lra. rewrite floor_temp_warm by lra. reflexivity. }
  assert (Hr : r 0 = r 0.1) by (unfold r; rewrite Hfl; reflexivity).
  assert (Hg : g 0 = g 0.1) by (unfold g; rewrite Hfl; reflexivity).
  assert (Hb : b 0 = b 0.1) by (unfold b; rewrite Hfl; reflexivity).
  repeat split; auto.
  - unfold ColorModel. rewrite Hr, Hg, Hb. reflexivity.
  - unfold ColorModel.
    rewrite r_low by (rewrite floor_temp_cold; lra).
    rewrite b_low by lra.
    rewrite g_low by (rewrite floor_temp_cold; lra).
    rewrite floor_temp_cold by lra.
    assert (Hln : ln 0.1 < 0).
    { rewrite <- ln_1. apply ln_increasing; lra. }
    assert (Hg0 : c8bit (99.4708025861 * ln 0.1 - 161.1195681661) = 0%Z).
    { unfold c8bit. destruct (Rlt_dec _ 0) as [_ | n]; [reflexivity |].
      exfalso. apply n. nra. }
    rewrite Hg0. reflexivity.
Qed.

(** C7: the clamp returns 0 on a negative number, 255 on a number greater
    than 255, and otherwise the number truncated toward zero, an integer
    between 0 and 255; 255.999 gives 255 and -0.5 gives 0. *)
Theorem c8bit_clamps (num : R) :
  (num < 0 -> c8bit num = 0%Z) /\
  (255 < num -> c8bit num = 255%Z) /\
  (0 <= num <= 255 ->
   c8bit num = int num /\
   IZR (c8bit num) <= num < IZR (c8bit num) + 1 /\
   (0 <= c8bit num <= 255)%Z) /\
  c8bit 255.999 = 255%Z /\
  c8bit (-0.5) = 0%Z.
Proof.
  split; [| split; [| split; [| split]]].
  - intros H. unfold c8bit. destruct (Rlt_dec num 0); [reflexivity | contradiction].
  - intros H. apply c8bit_saturates. lra.
  - intros [H0 H255].
    assert (Heq : c8bit num = int num).
    { unfold c8bit. destruct (Rlt_dec num 0); [lra |].
      destruct (Rgt_dec num 255); [lra | reflexivity]. }
    split; [exact Heq |]. split; [| apply c8bit_range].
    rewrite Heq, int_nonneg by exact H0. apply Int_part_bounds.
  - exact c8bit_ex1.
  - exact c8bit_ex2.
Qed.

Lemma c8bit_clamps_witness :
  c8bit (-3) = 0%Z /\ c8bit 1000 = 255%Z /\
  IZR (c8bit 100.7) <= 100.7 < IZR (c8bit 100.7) + 1.
Proof.
  split; [| split].
  - apply (proj1 (c8bit_clamps (-3))). lra.
  - apply (proj1 (proj2 (c8bit_clamps 1000))). lra.
  - apply (proj1 (proj2 (proj2 (c8bit_clamps 100.7)))). lra.
Defined.

(** C9: the red channel is monotonically non-increasing: for inputs
    x1 <= x2 both calls return a value and r(x1) >= r(x2). *)
Theorem r_non_increasing (x1 x2 : R) :
  x1 <= x2 ->
  exists v1 v2, r x1 = ret v1 /\ r x2 = ret v2 /\ (v1 >= v2)%Z.
Proof.
  intros H.
  destruct (Rle_dec x1 66) as [Hlo | Hhi].
  - destruct (r_total x2) as (v2 & H2 & Hv2).
    exists 255%Z, v2. split; [| split; [exact H2 | lia]].
    apply r_low. unfold floor_temp. destruct (Rle_dec x1 0); lra.
  - do 2 eexists. split; [apply r_high; lra |]. split; [apply r_high; lra |].
    apply Z.le_ge, c8bit_mono.
    apply Rmult_le_compat_l; [lra |].
    apply Rpower_neg_antitone; lra.
Qed.

Lemma r_non_increasing_witness :
  exists v1 v2, r 50 = ret v1 /\ r 100 = ret v2 /\ (v1 >= v2)%Z.
Proof. apply (r_non_increasing 50 100). lra. Defined.

(** C10: the blue channel is monotonically non-decreasing: for inputs
    x1 <= x2 both calls return a value and b(x1) <= b(x2). *)
Theorem b_non_decreasing (x1 x2 : R) :
  x1 <= x2 ->
  exists v1 v2, b x1 = ret v1 /\ b x2 = ret v2 /\ (v1 <= v2)%Z.
Proof.
  intros H.
  destruct (Rle_dec 66 x2) as [Hhi | Hhi].
  - destruct (b_total x1) as (v1 & H1 & Hv1).
    exists v1, 255%Z. split; [exact H1 |]. split; [now apply b_high | lia].
  - destruct (Rle_dec x1 19) as [Hlo | Hlo].
    + destruct (b_total x2) as (v2 & H2 & Hv2).
      exists 0%Z, v2. split; [now apply b_low |]. split; [exact H2 | lia].
    + do 2 eexists. split; [apply b_mid; lra |]. split; [apply b_mid; lra |].
      apply c8bit_mono.
      assert (ln (x1 - 10) <= ln (x2 - 10)) by (apply ln_le_compat; lra).
      lra.
Qed.

Lemma b_non_decreasing_witness :
  exists v1 v2, b 30 = ret v1 /\ b 50 = ret v2 /\ (v1 <= v2)%Z.
Proof. apply (b_non_decreasing 30 50). lra. Defined.

(** ** Sensor reader *)

(** C2: the reader does not return the maximum of the readings when they
    are all negative.  With a single [coretemp] reading of -5 the snapshot
    is non-empty and the maximum of the readings is -5, yet the reader
    returns 0.0, which is not a reading at all: the running maximum starts
    at [temp = 0.0], against the docstring "The highest value of multiple
    CPUs/cores is returned". *)
Lemma cputemp_not_max_below_zero :
  one_core (-5) <> [] /\
  is_max_of (reported (one_core (-5))) (-5) /\
  cputemp (one_core (-5)) = ret 0 /\
  ~ is_max_of (reported (one_core (-5))) 0.
Proof.
  split; [discriminate |]. split; [| split].
  - split; [now apply reported_one_core |].
    intros x Hx. apply reported_one_core in Hx. lra.
  - rewrite cputemp_one_core. destruct (Rgt_dec (-5) 0); [lra | reflexivity].
  - intros [Hrep _]. apply reported_one_core in Hrep. lra.
Qed.

(** What the two loops compute on a non-empty mapping: the maximum of
    0.0 and all "current" readings of the groups named coretemp or
    k10temp; this is the maximum of those readings whenever one of them
    is at least 0.0, and 0.0 when no group has one of these names. *)
Theorem cputemp_max_with_zero (temps : sensors) :
  temps <> [] ->
  exists t,
    cputemp temps = ret t /\
    is_max_of (fun x => x = 0 \/ reported temps x) t /\
    ((exists x, reported temps x /\ 0 <= x) -> is_max_of (reported temps) t) /\
    (no_cpu_group temps -> t = 0).
Proof.
  intros Hne. exists (scan_groups temps 0).
  destruct (scan_groups_spec temps 0) as (Hge & Hall & Hin).
  split; [destruct temps; [contradiction | reflexivity] |].
  split; [| split].
  - split; [tauto |]. intros x [-> | Hx]; [exact Hge | now apply Hall].
  - intros (x & Hx & Hx0). split; [| exact Hall].
    destruct Hin as [Heq | Hrep]; [| exact Hrep].
    assert (x = 0) by (specialize (Hall x Hx); lra).
    rewrite Heq. subst x. exact Hx.
  - intros Hno. apply scan_groups_no_match.
    intros name entries Hg. destruct (Hno name entries Hg) as [Hc Hk].
    destruct (is_cpu_chip name) eqn:Hchip; [| reflexivity].
    apply is_cpu_chip_spec in Hchip. tauto.
Qed.

(** C8: the reader never returns a negative value, whatever the readings:
    it either exits (exactly on the empty mapping) or returns a value of
    at least 0.0. *)
Theorem cputemp_never_negative (temps : sensors) :
  (temps = [] /\
   cputemp temps = inl (SystemExit "Unable to read temperature sensors!")) \/
  (temps <> [] /\ exists t, cputemp temps = ret t /\ 0 <= t).
Proof.
  destruct temps as [| group temps].
  - left. split; reflexivity.
  - right. split; [discriminate |].
    exists (scan_groups (group :: temps) 0). split; [reflexivity |].
    destruct (scan_groups_spec (group :: temps) 0) as (Hge & _). exact Hge.
Qed.

(** ** Thermal loop *)

(** C3: along every execution of the loop, from any state and on any
    sequence of sensor snapshots, the offsets of the successive states are
    non-increasing, and after each iteration the offset is not above the
    [temp] it was compared with in that iteration (it is either unchanged
    or equal to it).  From the initial [offset = 20] it never exceeds 20. *)
Theorem ambient_offset_non_increasing (colorshift : R) (st : loop_state)
        (first : sensors) (reads : list sensors) :
  StronglySorted (fun o o' => o' <= o)
    (map offset (states st (fst (loop colorshift st reads)))) /\
  Sorted offset_step (states st (fst (loop colorshift st reads))) /\
  Forall (fun o => o <= 20)
    (map offset (map fst (fst (cputemp2rgb first reads)))).
Proof.
  split; [apply loop_offsets_sorted |]. split; [apply loop_offset_steps |].
  unfold cputemp2rgb. destruct (cputemp first) as [e | t]; [constructor |].
  apply (loop_offsets_below COLORSHIFT reads (mk_state t 20)).
Qed.

(** C4: in every iteration the offset becomes min(offset, temp) with the
    [temp] of the previous iteration, then [temp] becomes the mean of the
    previous [temp] and the new raw sample, and the colour written is the
    colour model at new temp - new offset + COLORSHIFT.  From temp = 50,
    offset = 20, COLORSHIFT = 0 and raw sample 60, the new temp is 55 and
    the offset stays 20. *)
Theorem loop_body_sequencing :
  (forall colorshift st temps sample,
      cputemp temps = ret sample ->
      exists color,
        loop_body colorshift st temps =
          ret (mk_state ((temp st + sample) / 2) (Rmin (offset st) (temp st)),
               color) /\
        ColorModel ((temp st + sample) / 2 - Rmin (offset st) (temp st)
                    + colorshift) = ret color) /\
  (forall temps,
      cputemp temps = ret 60 ->
      exists color,
        loop_body COLORSHIFT (mk_state 50 20) temps =
          ret (mk_state 55 20, color) /\
        ColorModel (55 - 20 + 0) = ret color).
Proof.
  assert (Hgen : forall colorshift st temps sample,
      cputemp temps = ret sample ->
      exists color,
        loop_body colorshift st temps =
          ret (mk_state ((temp st + sample) / 2) (Rmin (offset st) (temp st)),
               color) /\
        ColorModel ((temp st + sample) / 2 - Rmin (offset st) (temp st)
                    + colorshift) = ret color).
  { intros cs st temps sample Hs.
    destruct (ColorModel_total
                ((temp st + sample) / 2 - Rmin (offset st) (temp st) + cs))
      as (color & Hc & _).
    exists color. split; [| exact Hc].
    unfold loop_body. rewrite Hs. simpl. rewrite offset_update_min, Hc.
    reflexivity. }
  split; [exact Hgen |].
  intros temps Hs.
  destruct (Hgen COLORSHIFT (mk_state 50 20) temps 60 Hs) as (color & Hb & Hc).
  simpl in Hb, Hc.
  assert (Ht : (50 + 60) / 2 = 55) by lra.
  assert (Ho : Rmin 20 50 = 20) by (unfold Rmin; destruct (Rle_dec 20 50); lra).
  rewrite Ht, Ho in Hb, Hc. exists color. split; [exact Hb | exact Hc].
Qed.

Lemma loop_body_sequencing_witness :
  exists color,
    loop_body COLORSHIFT (mk_state 50 20) (one_core 60) =
      ret (mk_state 55 20, color) /\
    ColorModel (55 - 20 + 0) = ret color.
Proof.
  apply (proj2 loop_body_sequencing (one_core 60)).
  rewrite cputemp_one_core. destruct (Rgt_dec 60 0); [reflexivity | lra].
Defined.

(** * Further properties of the code *)

(** ** Sensor reader *)

Lemma is_max_of_unique (P : R -> Prop) (m m' : R) :
  is_max_of P m -> is_max_of P m' -> m = m'.
Proof.
  intros [Hm Hub] [Hm' Hub']. apply Rle_antisym; auto.
Qed.

Lemma scan_groups_max (temps : sensors) :
  is_max_of (fun x => x = 0 \/ reported temps x) (scan_groups temps 0).
Proof.
  destruct (scan_groups_spec temps 0) as (Hge & Hall & Hin).
  split; [tauto |]. intros x [-> | Hx]; [exact Hge | now apply Hall].
Qed.

Lemma reported_app (temps more : sensors) (x : R) :
  reported (temps ++ more) x <-> reported temps x \/ reported more x.
Proof.
  unfold reported. split.
  - intros (n & es & e & Hin & Hrest). apply in_app_or in Hin.
    destruct Hin; [left | right]; exists n, es, e; auto.
  - intros [(n & es & e & Hin & Hrest) | (n & es & e & Hin & Hrest)];
      exists n, es, e; split; auto; apply in_or_app; auto.
Qed.

(** X1: the value returned by the reader depends only on which readings
    the coretemp and k10temp groups report: two non-empty mappings that
    report the same set of readings give the same result, whatever the
    order of groups and entries, the other groups, the labels and the
    high and critical fields. *)
Theorem cputemp_depends_on_readings_only (temps temps' : sensors) :
  temps <> [] -> temps' <> [] ->
  (forall x, reported temps x <-> reported temps' x) ->
  cputemp temps = cputemp temps'.
Proof.
  intros Hne Hne' Hsame.
  destruct temps as [| grp temps]; [contradiction |].
  destruct temps' as [| grp' temps']; [contradiction |].
  unfold cputemp. f_equal.
  apply (is_max_of_unique (fun x => x = 0 \/ reported (grp :: temps) x)).
  - apply scan_groups_max.
  - destruct (scan_groups_max (grp' :: temps')) as [Hm Hub]. split.
    + destruct Hm as [H0 | Hrep]; [now left | right; now apply Hsame].
    + intros x [-> | Hx]; apply Hub; [now left | right; now apply Hsame].
Qed.

Lemma cputemp_depends_on_readings_only_witness :
  cputemp [("acpitz"%string, [mk_shwtemp "" 30 None None]);
           ("coretemp"%string, [mk_shwtemp "Core 0" 40 (Some 80) (Some 100)])] =
  cputemp (one_core 40).
Proof.
  apply cputemp_depends_on_readings_only; [discriminate | discriminate |].
  intros x. rewrite reported_one_core. unfold reported. split.
  - intros (n & es & e & [Hg | [Hg | []]] & Hname & He & Hx);
      inversion Hg; subst n es.
    + destruct Hname; discriminate.
    + destruct He as [<- | []]. simpl in Hx. auto.
  - intros ->. do 3 eexists. split; [right; now left |].
    split; [now left |]. split; [now left | reflexivity].
Defined.

(** X2: more sensor data never lowers the result: appending groups to a
    non-empty mapping gives a result at least as large. *)
Theorem cputemp_grows_with_groups (temps more : sensors) :
  temps <> [] ->
  exists t t',
    cputemp temps = ret t /\ cputemp (temps ++ more) = ret t' /\ t <= t'.
Proof.
  intros Hne. destruct temps as [| grp temps]; [contradiction |].
  exists (scan_groups (grp :: temps) 0), (scan_groups ((grp :: temps) ++ more) 0).
  split; [reflexivity |]. split; [reflexivity |].
  destruct (scan_groups_max (grp :: temps)) as [Hm _].
  destruct (scan_groups_max ((grp :: temps) ++ more)) as [_ Hub].
  apply Hub. destruct Hm as [H0 | Hrep]; [now left | right].
  apply reported_app. now left.
Qed.

Lemma cputemp_grows_with_groups_witness :
  exists t t',
    cputemp (one_core 40) = ret t /\
    cputemp (one_core 40 ++ [("k10temp"%string, [mk_shwtemp "Tctl" 55 None None])])
      = ret t' /\ t <= t'.
Proof. apply (cputemp_grows_with_groups (one_core 40)). discriminate. Defined.

(** ** The clamp *)

(** X3: the clamp leaves every byte value unchanged: for an integer z
    between 0 and 255, c8bit(z) = z. *)
Theorem c8bit_fixes_bytes (z : Z) :
  (0 <= z <= 255)%Z -> c8bit (IZR z) = z.
Proof.
  intros [H0 H255].
  assert (Hlo : 0 <= IZR z) by (apply IZR_le in H0; exact H0).
  assert (Hhi : IZR z <= 255) by (apply IZR_le in H255; exact H255).
  unfold c8bit. destruct (Rlt_dec (IZR z) 0); [lra |].
  destruct (Rgt_dec (IZR z) 255); [lra |].
  rewrite int_nonneg by exact Hlo.
  apply Z.le_antisymm; [apply Int_part_le | apply Int_part_ge]; lra.
Qed.

Lemma c8bit_fixes_bytes_witness : c8bit (IZR 200) = 200%Z.
Proof. apply c8bit_fixes_bytes. lia. Defined.

(** X4: the clamp is idempotent: clamping a clamped value changes
    nothing. *)
Theorem c8bit_idempotent (num : R) :
  c8bit (IZR (c8bit num)) = c8bit num.
Proof.
  pose proof (c8bit_range num) as Hr.
  unfold c8bit at 1.
  assert (Hlo : 0 <= IZR (c8bit num)) by (apply (IZR_le 0); lia).
  assert (Hhi : IZR (c8bit num) <= 255) by (apply (IZR_le _ 255); lia).
  destruct (Rlt_dec (IZR (c8bit num)) 0); [lra |].
  destruct (Rgt_dec (IZR (c8bit num)) 255); [lra |].
  rewrite int_nonneg by exact Hlo.
  apply Z.le_antisymm; [apply Int_part_le | apply Int_part_ge]; lra.
Qed.

(** X5: the clamp is monotone: a larger raw channel value never gives a
    smaller byte. *)
Theorem c8bit_monotone (x y : R) :
  x <= y -> (c8bit x <= c8bit y)%Z.
Proof. apply c8bit_mono. Qed.

Lemma c8bit_monotone_witness : (c8bit (-7) <= c8bit 300.5)%Z.
Proof. apply c8bit_monotone. lra. Defined.

(** ** Numeric bounds on [exp] and [ln] *)

Lemma scale_pos : (0 < scale)%Z.
Proof. reflexivity. Qed.

Lemma sq_up_spec (c : Z) : (c * c <= sq_up c * scale)%Z.
Proof.
  unfold sq_up. pose proof scale_pos as Hs.
  pose proof (Z.div_mod (c * c + (scale - 1)) scale ltac:(lia)) as Hdm.
  pose proof (Z.mod_pos_bound (c * c + (scale - 1)) scale Hs) as Hm.
  lia.
Qed.

Lemma sq_down_spec (c : Z) : (0 <= sq_down c /\ sq_down c * scale <= c * c)%Z.
Proof.
  unfold sq_down. pose proof scale_pos as Hs.
  pose proof (Z.div_mod (c * c) scale ltac:(lia)) as Hdm.
  pose proof (Z.mod_pos_bound (c * c) scale Hs) as Hm.
  split; [apply Z.div_pos; nia | lia].
Qed.

Lemma exp_double (y : R) : exp (2 * y) = exp y * exp y.
Proof. replace (2 * y) with (y + y) by lra. apply exp_plus. Qed.

Lemma exp_upper_iter (k : nat) :
  forall (y : R) (c : Z),
    exp y * IZR scale <= IZR c ->
    exp (2 ^ k * y) * IZR scale <= IZR (iter_sq sq_up k c).
Proof.
  assert (Hs : 0 < IZR scale) by (apply IZR_lt, scale_pos).
  induction k as [| k IH]; intros y c Hc.
  - simpl. rewrite Rmult_1_l. exact Hc.
  - replace (2 ^ S k * y) with (2 ^ k * (2 * y)) by (simpl; ring).
    cbn [iter_sq]. apply IH. rewrite exp_double.
    pose proof (exp_pos y) as Hp.
    pose proof (IZR_le _ _ (sq_up_spec c)) as Hsq.
    rewrite !mult_IZR in Hsq.
    apply (Rmult_le_reg_r (IZR scale)); [exact Hs |].
    apply Rle_trans with (IZR c * IZR c); [| exact Hsq].
    replace (exp y * exp y * IZR scale * IZR scale)
      with ((exp y * IZR scale) * (exp y * IZR scale)) by ring.
    apply Rmult_le_compat; try exact Hc; apply Rmult_le_pos; lra.
Qed.

Lemma exp_lower_iter (k : nat) :
  forall (y : R) (c : Z),
    (0 <= c)%Z ->
    IZR c <= exp y * IZR scale ->
    IZR (iter_sq sq_down k c) <= exp (2 ^ k * y) * IZR scale.
Proof.
  assert (Hs : 0 < IZR scale) by (apply IZR_lt, scale_pos).
  induction k as [| k IH]; intros y c H0 Hc.
  - simpl. rewrite Rmult_1_l. exact Hc.
  - replace (2 ^ S k * y) with (2 ^ k * (2 * y)) by (simpl; ring).
    cbn [iter_sq]. destruct (sq_down_spec c) as [Hnn Hsq].
    apply IH; [exact Hnn |]. rewrite exp_double.
    apply IZR_le in Hsq. rewrite !mult_IZR in Hsq.
    apply (Rmult_le_reg_r (IZR scale)); [exact Hs |].
    apply Rle_trans with (IZR c * IZR c); [exact Hsq |].
    replace (exp y * exp y * IZR scale * IZR scale)
      with ((exp y * IZR scale) * (exp y * IZR scale)) by ring.
    apply IZR_le in H0.
    apply Rmult_le_compat; try exact Hc; exact H0.
Qed.

(** [exp (2^k * y) <= B], from [exp y <= 1 / (1 - y)] squared [k] times
    in fixed-point arithmetic rounded up. *)
Lemma exp_upper_chain (k : nat) (y : R) (c B : Z) :
  0 <= y < 1 ->
  IZR scale <= IZR c * (1 - y) ->
  (iter_sq sq_up k c <= B * scale)%Z ->
  exp (2 ^ k * y) <= IZR B.
Proof.
  intros Hy Hc HB.
  assert (Hs : 0 < IZR scale) by (apply IZR_lt, scale_pos).
  apply (Rmult_le_reg_r (IZR scale)); [exact Hs |].
  rewrite <- mult_IZR.
  apply Rle_trans with (IZR (iter_sq sq_up k c)); [| apply IZR_le, HB].
  apply exp_upper_iter.
  pose proof (exp_ineq1_le (- y)) as Hlow. rewrite exp_Ropp in Hlow.
  pose proof (exp_pos y) as Hp.
  assert (Hinv : / exp y * exp y = 1) by (apply Rinv_l; lra).
  apply Rle_trans with (exp y * (IZR c * (1 - y))).
  - apply Rmult_le_compat_l; lra.
  - assert (Hc0 : 0 <= IZR c).
    { apply Rmult_le_reg_r with (1 - y); [lra |]. lra. }
    assert (exp y * (1 - y) <= 1).
    { apply Rle_trans with (exp y * / exp y).
      - apply Rmult_le_compat_l; lra.
      - rewrite Rinv_r by lra. lra. }
    replace (exp y * (IZR c * (1 - y))) with (IZR c * (exp y * (1 - y))) by ring.
    rewrite <- (Rmult_1_r (IZR c)) at 2.
    apply Rmult_le_compat_l; lra.
Qed.

(** [B <= exp (2^k * y)], from [1 + y <= exp y] squared [k] times in
    fixed-point arithmetic rounded down. *)
Lemma exp_lower_chain (k : nat) (y : R) (c B : Z) :
  0 <= y ->
  (0 <= c)%Z ->
  IZR c <= (1 + y) * IZR scale ->
  (B * scale <= iter_sq sq_down k c)%Z ->
  IZR B <= exp (2 ^ k * y).
Proof.
  intros Hy H0 Hc HB.
  assert (Hs : 0 < IZR scale) by (apply IZR_lt, scale_pos).
  apply (Rmult_le_reg_r (IZR scale)); [exact Hs |].
  rewrite <- mult_IZR.
  apply Rle_trans with (IZR (iter_sq sq_down k c)); [apply IZR_le, HB |].
  apply exp_lower_iter; [exact H0 |].
  pose proof (exp_ineq1_le y) as Hlow.
  apply Rle_trans with ((1 + y) * IZR scale); [exact Hc |].
  apply Rmult_le_compat_r; lra.
Qed.

Lemma ln_lower_of_exp (x y : R) : exp x <= y -> x <= ln y.
Proof.
  intros H. apply Rle_trans with (ln (exp x)).
  - rewrite ln_exp. apply Rle_refl.
  - apply ln_le_compat; [apply exp_pos | exact H].
Qed.

Lemma ln_upper_of_exp (x y : R) : 0 < y -> y <= exp x -> ln y <= x.
Proof.
  intros Hy H. apply Rle_trans with (ln (exp x)).
  - apply ln_le_compat; [exact Hy | exact H].
  - rewrite ln_exp. apply Rle_refl.
Qed.

Lemma ln_66_lower : 4.1836 <= ln 66.
Proof.
  apply ln_lower_of_exp.
  replace 4.1836 with (2 ^ 12 * (4.1836 / 4096)) by (simpl; lra).
  apply (exp_upper_chain 12 _ 1001022431017 66).
  - lra.
  - unfold scale. lra.
  - apply Z.leb_le. vm_compute. reflexivity.
Qed.

Lemma ln_6_lower : 1.7 <= ln 6.
Proof.
  apply ln_lower_of_exp.
  replace 1.7 with (2 ^ 6 * (1.7 / 64)) by (simpl; lra).
  apply (exp_upper_chain 6 _ 1027287319423 6).
  - lra.
  - unfold scale. lra.
  - apply Z.leb_le. vm_compute. reflexivity.
Qed.

Lemma ln_56_upper : ln 56 <= 4.04.
Proof.
  apply ln_upper_of_exp; [lra |].
  replace 4.04 with (2 ^ 11 * (4.04 / 2048)) by (simpl; lra).
  apply (exp_lower_chain 11 _ 1001972656250 56).
  - lra.
  - lia.
  - unfold scale. lra.
  - apply Z.leb_le. vm_compute. reflexivity.
Qed.

Lemma ln_4_upper : ln 4 <= 1.6.
Proof.
  apply ln_upper_of_exp; [lra |].
  replace 1.6 with (2 ^ 4 * (1.6 / 16)) by (simpl; lra).
  apply (exp_lower_chain 4 _ 1100000000000 4).
  - lra.
  - lia.
  - unfold scale. lra.
  - apply Z.leb_le. vm_compute. reflexivity.
Qed.

(** ** Colour model *)

Lemma g_cold (x : R) : x <= 4 -> g x = ret 0%Z.
Proof.
  intros H. rewrite g_low.
  2:{ unfold floor_temp. destruct (Rle_dec x 0); lra. }
  f_equal. unfold c8bit.
  destruct (Rlt_dec _ 0) as [_ | n]; [reflexivity | exfalso; apply n].
  assert (Hln : ln (floor_temp x) <= 1.6).
  { apply Rle_trans with (ln 4); [| exact ln_4_upper].
    apply ln_le_compat; [apply floor_temp_pos |].
    unfold floor_temp. destruct (Rle_dec x 0); lra. }
  lra.
Qed.

Lemma g_at_66 : g 66 = ret 255%Z.
Proof.
  rewrite g_low by (rewrite floor_temp_warm; lra).
  rewrite floor_temp_warm by lra.
  f_equal. apply c8bit_saturates. pose proof ln_66_lower. lra.
Qed.

Lemma exp_128_lower : 1.132 <= exp 0.128.
Proof.
  replace 0.128 with (0.064 + 0.064) by lra. rewrite exp_plus.
  pose proof (exp_ineq1_le 0.064). nra.
Qed.

Lemma g_formula_above_66 (x : R) :
  66 < x -> 288.1221695283 * Rpower (x - 60) (-0.0755148492) < 255.
Proof.
  intros H.
  assert (Hln : 1.7 <= ln (x - 60)).
  { apply Rle_trans with (ln 6); [exact ln_6_lower |].
    apply ln_le_compat; lra. }
  unfold Rpower.
  assert (Hle : exp (-0.0755148492 * ln (x - 60)) <= exp (- (0.128))).
  { apply exp_le_compat. lra. }
  rewrite exp_Ropp in Hle.
  pose proof exp_128_lower as He.
  assert (Hinv : / exp 0.128 <= / 1.132) by (apply Rinv_le_contravar; lra).
  assert (Hq : / 1.132 < 0.884).
  { apply (Rmult_lt_reg_l 1.132); [lra |]. rewrite Rinv_r by lra. lra. }
  lra.
Qed.

Lemma b_formula_below_66 (x : R) :
  19 < x < 66 -> 138.5177312231 * ln (x - 10) - 305.0447927307 < 255.
Proof.
  intros H.
  assert (Hln : ln (x - 10) <= 4.04).
  { apply Rle_trans with (ln 56); [| exact ln_56_upper].
    apply ln_le_compat; lra. }
  lra.
Qed.

Lemma ret_inj {A : Type} (x y : A) : ret x = ret y -> x = y.
Proof. intros H. inversion H. reflexivity. Qed.

(** X6: below the threshold the green channel is monotonically
    non-decreasing: for x1 <= x2 <= 66, g(x1) <= g(x2). *)
Theorem g_non_decreasing_to_66 (x1 x2 : R) :
  x1 <= x2 -> x2 <= 66 ->
  exists v1 v2, g x1 = ret v1 /\ g x2 = ret v2 /\ (v1 <= v2)%Z.
Proof.
  intros H12 H2.
  destruct (Rle_dec x1 0) as [Hcold | Hwarm].
  - destruct (g_total x2) as (v2 & Hg2 & Hv2).
    exists 0%Z, v2. split; [apply g_cold; lra |]. split; [exact Hg2 | lia].
  - do 2 eexists.
    split; [apply g_low; rewrite floor_temp_warm; lra |].
    split; [apply g_low; rewrite floor_temp_warm; lra |].
    rewrite !floor_temp_warm by lra. apply c8bit_mono.
    assert (ln x1 <= ln x2) by (apply ln_le_compat; lra). lra.
Qed.

Lemma g_non_decreasing_to_66_witness :
  exists v1 v2, g 20 = ret v1 /\ g 60 = ret v2 /\ (v1 <= v2)%Z.
Proof. apply (g_non_decreasing_to_66 20 60); lra. Defined.

(** X7: above the threshold the green channel is monotonically
    non-increasing: for 66 < x1 <= x2, g(x1) >= g(x2). *)
Theorem g_non_increasing_from_66 (x1 x2 : R) :
  66 < x1 -> x1 <= x2 ->
  exists v1 v2, g x1 = ret v1 /\ g x2 = ret v2 /\ (v1 >= v2)%Z.
Proof.
  intros H1 H12.
  do 2 eexists. split; [apply g_high; lra |]. split; [apply g_high; lra |].
  apply Z.le_ge, c8bit_mono.
  apply Rmult_le_compat_l; [lra |].
  apply Rpower_neg_antitone; lra.
Qed.

Lemma g_non_increasing_from_66_witness :
  exists v1 v2, g 70 = ret v1 /\ g 90 = ret v2 /\ (v1 >= v2)%Z.
Proof. apply (g_non_increasing_from_66 70 90); lra. Defined.

Lemma g_above_66 (x : R) :
  66 < x -> exists v, g x = ret v /\ (v < 255)%Z.
Proof.
  intros H. eexists. split; [apply g_high; exact H |].
  apply c8bit_below; [lia |]. apply g_formula_above_66, H.
Qed.

Lemma b_saturated_inv (x : R) : b x = ret 255%Z -> 66 <= x.
Proof.
  intros Hb. destruct (Rle_dec 66 x) as [Hge | Hlt]; [exact Hge | exfalso].
  destruct (Rle_dec x 19) as [Hlo | Hmid].
  - rewrite b_low in Hb by exact Hlo. apply ret_inj in Hb. discriminate.
  - assert (Hx : 19 < x < 66) by lra.
    rewrite b_mid in Hb by exact Hx. apply ret_inj in Hb.
    pose proof (c8bit_below _ 255 ltac:(lia) (b_formula_below_66 x Hx)) as Hlt255.
    lia.
Qed.

(** X8: the green channel is not monotone: it is 255 at exactly 66 and
    below 255 at every input above 66. *)
Theorem g_drops_after_66 (x : R) :
  66 < x ->
  g 66 = ret 255%Z /\ exists v, g x = ret v /\ (v < 255)%Z.
Proof.
  intros H. split; [exact g_at_66 | apply g_above_66, H].
Qed.

Lemma g_drops_after_66_witness :
  g 66 = ret 255%Z /\ exists v, g 66.5 = ret v /\ (v < 255)%Z.
Proof. apply (g_drops_after_66 66.5). lra. Defined.

(** X9: the blue channel is 255 exactly on the inputs of at least 66. *)
Theorem b_saturated_iff (x : R) :
  b x = ret 255%Z <-> 66 <= x.
Proof.
  split; [apply b_saturated_inv | apply b_high].
Qed.

Lemma ColorModel_at_66 : ColorModel 66 = ret white.
Proof.
  unfold ColorModel.
  rewrite r_low by (rewrite floor_temp_warm; lra).
  rewrite g_at_66, b_high by lra. reflexivity.
Qed.

(** X10: the colour model returns pure white at exactly one input, 66. *)
Theorem white_only_at_66 (x : R) :
  ColorModel x = ret white <-> x = 66.
Proof.
  split.
  - intros Hc. unfold ColorModel in Hc.
    destruct (r_total x) as (rv & Hr & _).
    destruct (g_total x) as (gv & Hg & _).
    destruct (b_total x) as (bv & Hb & _).
    rewrite Hr, Hg, Hb in Hc. simpl in Hc. apply ret_inj in Hc.
    unfold white in Hc. inversion Hc; subst rv gv bv.
    assert (H66 : 66 <= x) by (apply b_saturated_inv; exact Hb).
    destruct H66 as [Hgt | Heq]; [exfalso | symmetry; exact Heq].
    destruct (g_above_66 x Hgt) as (v & Hv & Hlt).
    rewrite Hg in Hv. apply ret_inj in Hv. lia.
  - intros ->. exact ColorModel_at_66.
Qed.

(** X11: for every input of at most 19 the red channel is 255 and the
    blue channel is 0; for every input of at most 4 the green channel is
    0 as well, so the colour is pure red. *)
Theorem cold_colors (x : R) :
  x <= 19 ->
  exists gv,
    ColorModel x = ret (mk_RGBColor 255 gv 0) /\
    (x <= 4 -> ColorModel x = ret pure_red).
Proof.
  intros H. destruct (g_total x) as (gv & Hg & _).
  assert (Hr : r x = ret 255%Z).
  { apply r_low. unfold floor_temp. destruct (Rle_dec x 0); lra. }
  exists gv. unfold ColorModel.
  rewrite Hr, Hg, b_low by exact H. split; [reflexivity |].
  intros H4. rewrite g_cold in Hg by exact H4. apply ret_inj in Hg.
  subst gv. reflexivity.
Qed.

Lemma cold_colors_witness :
  exists gv,
    ColorModel (-30) = ret (mk_RGBColor 255 gv 0) /\
    (-30 <= 4 -> ColorModel (-30) = ret pure_red).
Proof. apply (cold_colors (-30)). lra. Defined.

(** ** Thermal loop *)

Lemma loop_step_ok (cs : R) (st st' : loop_state) (temps : sensors)
      (rest : list sensors) (color : RGBColor) :
  loop_body cs st temps = ret (st', color) ->
  loop cs st (temps :: rest) =
  ((st', color) :: fst (loop cs st' rest), snd (loop cs st' rest)).
Proof.
  intros Hb. cbn [loop]. rewrite Hb. unfold ret.
  destruct (loop cs st' rest). reflexivity.
Qed.

Lemma loop_step_err (cs : R) (st : loop_state) (temps : sensors)
      (rest : list sensors) (e : error) :
  loop_body cs st temps = inl e -> loop cs st (temps :: rest) = ([], Some e).
Proof.
  intros Hb. cbn [loop]. rewrite Hb. reflexivity.
Qed.

(** An iteration fails only on an empty snapshot, with the exit of
    [cputemp]. *)
Lemma loop_body_err (cs : R) (st : loop_state) (temps : sensors) (e : error) :
  loop_body cs st temps = inl e ->
  temps = [] /\ e = SystemExit "Unable to read temperature sensors!".
Proof.
  intros Hb. destruct temps as [| grp temps].
  - unfold loop_body in Hb. simpl in Hb. inversion Hb. auto.
  - destruct (loop_body_runs cs st (grp :: temps)) as (st' & c & Hok);
      [discriminate |].
    rewrite Hok in Hb. discriminate.
Qed.

Lemma loop_body_cases (cs : R) (st : loop_state) (temps : sensors) :
  (exists st' color, loop_body cs st temps = ret (st', color)) \/
  (exists e, loop_body cs st temps = inl e).
Proof.
  destruct (loop_body cs st temps) as [e | [st' color]]; [right | left]; eauto.
Qed.

Lemma loop_io_step_ok (cs : R) (st st' : loop_state) (temps : sensors)
      (rest : list (sensors * bool)) (color : RGBColor) :
  loop_body cs st temps = ret (st', color) ->
  loop_io cs st ((temps, true) :: rest) =
  ((st', color) :: fst (loop_io cs st' rest), snd (loop_io cs st' rest)).
Proof.
  intros Hb. cbn [loop_io]. rewrite Hb. unfold ret.
  destruct (loop_io cs st' rest). reflexivity.
Qed.

Lemma loop_io_step_device (cs : R) (st st' : loop_state) (temps : sensors)
      (rest : list (sensors * bool)) (color : RGBColor) :
  loop_body cs st temps = ret (st', color) ->
  loop_io cs st ((temps, false) :: rest) = ([], Some DeviceFailure).
Proof.
  intros Hb. cbn [loop_io]. rewrite Hb. reflexivity.
Qed.

Lemma loop_io_step_err (cs : R) (st : loop_state) (temps : sensors)
      (completes : bool) (rest : list (sensors * bool)) (e : error) :
  loop_body cs st temps = inl e ->
  loop_io cs st ((temps, completes) :: rest) = ([], Some (Computation e)).
Proof.
  intros Hb. cbn [loop_io]. rewrite Hb. reflexivity.
Qed.

(** X12: the loop never stops on its own: as long as every snapshot is
    non-empty and the [set_color] and [sleep] calls complete, it
    completes one iteration per snapshot, writes one colour each time,
    and is still running at the end. *)
Theorem loop_runs_while_sensors_report (colorshift : R) (st : loop_state)
        (ios : list (sensors * bool)) :
  Forall (fun io => fst io <> [] /\ snd io = true) ios ->
  List.length (fst (loop_io colorshift st ios)) = List.length ios /\
  snd (loop_io colorshift st ios) = None.
Proof.
  intros H. revert st.
  induction H as [| [temps completes] rest [Hne Hok] _ IH]; intros st;
    [split; reflexivity |].
  cbn [fst snd] in Hne, Hok. subst completes.
  destruct (loop_body_runs colorshift st temps Hne) as (st' & color & Hb).
  pose proof (loop_io_step_ok _ _ _ _ rest _ Hb) as Hstep.
  unfold sensors in *. rewrite Hstep. cbn [fst snd List.length].
  destruct (IH st') as (Hlen & Hstop). rewrite Hlen.
  split; [reflexivity | exact Hstop].
Qed.

Lemma loop_runs_while_sensors_report_witness :
  List.length (fst (loop_io COLORSHIFT (mk_state 45 20)
                      [(one_core 50, true); (no_cpu_snapshot, true);
                       (one_core (-5), true)])) = 3%nat /\
  snd (loop_io COLORSHIFT (mk_state 45 20)
         [(one_core 50, true); (no_cpu_snapshot, true);
          (one_core (-5), true)]) = None.
Proof.
  apply (loop_runs_while_sensors_report COLORSHIFT (mk_state 45 20)
           [(one_core 50, true); (no_cpu_snapshot, true);
            (one_core (-5), true)]).
  repeat constructor; discriminate.
Defined.

(** X13: when the loop stops, it is for one of two reasons: [cputemp]
    exited on an empty snapshot, or [set_color] or [sleep] raised.  It is
    never an arithmetic failure of the colour functions.  Every iteration
    before the one that stopped the loop was completed, and none after
    it. *)
Theorem loop_stops_on_empty_or_device (colorshift : R) (st : loop_state)
        (ios : list (sensors * bool)) (e : loop_error) :
  snd (loop_io colorshift st ios) = Some e ->
  exists pre io post,
    ios = pre ++ io :: post /\
    Forall (fun io => fst io <> [] /\ snd io = true) pre /\
    List.length (fst (loop_io colorshift st ios)) = List.length pre /\
    ((fst io = [] /\
      e = Computation (SystemExit "Unable to read temperature sensors!")) \/
     (fst io <> [] /\ snd io = false /\ e = DeviceFailure)).
Proof.
  revert st. induction ios as [| [temps completes] rest IH]; intros st Hstop.
  - discriminate.
  - destruct (loop_body_cases colorshift st temps)
      as [(st' & color & Hb) | (e' & Hb)].
    + assert (Hne : temps <> []).
      { intros ->. unfold loop_body in Hb. simpl in Hb. discriminate. }
      destruct completes.
      * rewrite (loop_io_step_ok _ _ _ _ rest _ Hb) in *. cbn [fst snd] in *.
        destruct (IH st' Hstop)
          as (pre & io & post & Hios & Hpre & Hlen & Hwhy).
        exists ((temps, true) :: pre), io, post.
        split; [rewrite Hios; reflexivity |]. split.
        { constructor; [split; [exact Hne | reflexivity] | exact Hpre]. }
        split; [simpl; rewrite Hlen; reflexivity | exact Hwhy].
      * rewrite (loop_io_step_device _ _ _ _ rest _ Hb) in *.
        cbn [fst snd] in *. inversion Hstop; subst e.
        exists [], (temps, false), rest.
        split; [reflexivity |]. split; [constructor |].
        split; [reflexivity |]. right. auto.
    + rewrite (loop_io_step_err _ _ _ completes rest _ Hb) in *.
      cbn [fst snd] in *.
      destruct (loop_body_err _ _ _ _ Hb) as [-> ->].
      inversion Hstop; subst e.
      exists [], ([], completes), rest.
      split; [reflexivity |]. split; [constructor |].
      split; [reflexivity |]. left. auto.
Qed.

Lemma loop_stops_on_empty_or_device_witness :
  exists pre io post,
    [(one_core 50, true); (one_core 50, false); ([], true)] =
      pre ++ io :: post /\
    Forall (fun io : sensors * bool => fst io <> [] /\ snd io = true) pre /\
    List.length
      (fst (loop_io COLORSHIFT (mk_state 45 20)
              [(one_core 50, true); (one_core 50, false); ([], true)])) =
      List.length pre /\
    ((fst io = [] /\
      DeviceFailure =
        Computation (SystemExit "Unable to read temperature sensors!")) \/
     (fst io <> [] /\ snd io = false /\ DeviceFailure = DeviceFailure)).
Proof.
  apply (loop_stops_on_empty_or_device COLORSHIFT (mk_state 45 20)
           [(one_core 50, true); (one_core 50, false); ([], true)]).
  destruct (loop_body_runs COLORSHIFT (mk_state 45 20) (one_core 50))
    as (st1 & c1 & Hb1); [discriminate |].
  rewrite (loop_io_step_ok _ _ _ _ _ _ Hb1). cbn [snd].
  destruct (loop_body_runs COLORSHIFT st1 (one_core 50))
    as (st2 & c2 & Hb2); [discriminate |].
  rewrite (loop_io_step_device _ _ _ _ _ _ Hb2). reflexivity.
Defined.

(** Without device failures [loop_io] is [loop]. *)
Lemma loop_io_all_complete (cs : R) (reads : list sensors) :
  forall st,
    loop_io cs st (map (fun temps => (temps, true)) reads) =
    (fst (loop cs st reads), option_map Computation (snd (loop cs st reads))).
Proof.
  induction reads as [| temps rest IH]; intros st; [reflexivity |].
  cbn [map].
  destruct (loop_body_cases cs st temps) as [(st' & color & Hb) | (e & Hb)].
  - rewrite (loop_io_step_ok _ _ _ _ _ _ Hb), (loop_step_ok _ _ _ _ rest _ Hb).
    rewrite IH. reflexivity.
  - rewrite (loop_io_step_err _ _ _ _ _ _ Hb), (loop_step_err _ _ _ rest _ Hb).
    reflexivity.
Qed.

Lemma loop_colors_range (cs : R) (reads : list sensors) :
  forall st,
    Forall (fun c => (0 <= red c <= 255)%Z /\ (0 <= green c <= 255)%Z /\
                     (0 <= blue c <= 255)%Z)
      (map snd (fst (loop cs st reads))).
Proof.
  induction reads as [| temps rest IH]; intros st; [constructor |].
  destruct (loop_body_cases cs st temps) as [(st' & color & Hb) | (e & Hb)].
  - rewrite (loop_step_ok _ _ _ _ rest _ Hb). cbn [fst map snd].
    constructor; [| apply IH].
    apply loop_body_inv in Hb. destruct Hb as (_ & _ & _ & _ & Hc).
    destruct (ColorModel_total (temp st' - offset st' + cs)) as (c & Hc' & Hr).
    rewrite Hc in Hc'. apply ret_inj in Hc'. subst c. exact Hr.
  - rewrite (loop_step_err _ _ _ rest _ Hb). constructor.
Qed.

(** X14: every colour the program writes in the loop has its three
    channels between 0 and 255, whatever the sensors report. *)
Theorem written_colors_in_range (first : sensors) (reads : list sensors) :
  Forall (fun c => (0 <= red c <= 255)%Z /\ (0 <= green c <= 255)%Z /\
                   (0 <= blue c <= 255)%Z)
    (map snd (fst (cputemp2rgb first reads))).
Proof.
  unfold cputemp2rgb. destruct (cputemp first) as [e | t]; [constructor |].
  apply loop_colors_range.
Qed.

Lemma states_cons (st st' : loop_state) (color : RGBColor)
      (trace : list (loop_state * RGBColor)) :
  states st ((st', color) :: trace) = st :: states st' trace.
Proof. reflexivity. Qed.

Lemma offsets_running_mins (cs : R) (reads : list sensors) :
  forall st,
    map offset (states st (fst (loop cs st reads))) =
    running_mins (offset st)
      (map temp (removelast (states st (fst (loop cs st reads))))).
Proof.
  induction reads as [| temps rest IH]; intros st; [reflexivity |].
  destruct (loop_body_cases cs st temps) as [(st' & color & Hb) | (e & Hb)].
  - rewrite (loop_step_ok _ _ _ _ rest _ Hb). cbn [fst].
    rewrite states_cons.
    change (removelast (st :: states st' (fst (loop cs st' rest))))
      with (st :: removelast (states st' (fst (loop cs st' rest)))).
    cbn [map running_mins]. f_equal. rewrite (IH st'). f_equal.
    apply loop_body_inv in Hb. destruct Hb as (_ & _ & _ & Ho & _). exact Ho.
  - rewrite (loop_step_err _ _ _ rest _ Hb). reflexivity.
Qed.

(** X15: the offset is the running minimum of the initial offset and the
    smoothed temperatures of all earlier states: the offsets of the
    successive states are the running minima of the initial offset
    followed by the [temp] of every state but the last. *)
Theorem offset_is_running_minimum (colorshift : R) (st : loop_state)
        (reads : list sensors) :
  map offset (states st (fst (loop colorshift st reads))) =
  running_mins (offset st)
    (map temp (removelast (states st (fst (loop colorshift st reads))))).
Proof. apply offsets_running_mins. Qed.

Lemma loop_body_constant (cs s : R) (st : loop_state) (temps : sensors) :
  cputemp temps = ret s ->
  exists color,
    loop_body cs st temps =
      ret (mk_state ((temp st + s) / 2) (Rmin (offset st) (temp st)), color) /\
    ColorModel ((temp st + s) / 2 - Rmin (offset st) (temp st) + cs) = ret color.
Proof.
  intros Hs.
  destruct (ColorModel_total
              ((temp st + s) / 2 - Rmin (offset st) (temp st) + cs))
    as (color & Hc & _).
  exists color. split; [| exact Hc].
  unfold loop_body. rewrite Hs. simpl. rewrite offset_update_min, Hc.
  reflexivity.
Qed.

(** X16: exponential smoothing.  While the reader keeps returning the
    same sample s, the loop runs, and the smoothed temperature after
    iteration k+1 is s + (t0 - s) / 2^(k+1), where t0 is the temperature
    before the first iteration: the distance to the sample halves at
    every iteration. *)
Theorem smoothing_closed_form (colorshift s : R) (st : loop_state)
        (reads : list sensors) :
  constant_reads s reads ->
  map temp (map fst (fst (loop colorshift st reads))) =
  map (fun k => s + (temp st - s) / 2 ^ S k) (seq 0 (List.length reads)).
Proof.
  intros Hconst. revert st.
  induction Hconst as [| temps rest Hs _ IH]; intros st; [reflexivity |].
  destruct (loop_body_constant colorshift s st temps Hs) as (color & Hb & _).
  rewrite (loop_step_ok _ _ _ _ rest _ Hb). cbn [fst map List.length seq].
  f_equal; [simpl; field |].
  rewrite (IH _), <- seq_shift, map_map. apply map_ext.
  intros k. cbn [temp]. simpl. field.
  assert (2 ^ k <> 0) by (apply pow_nonzero; lra). lra.
Qed.

Lemma constant_reads_no_cpu :
  constant_reads 0 [no_cpu_snapshot; no_cpu_snapshot].
Proof. repeat constructor. Qed.

Lemma smoothing_closed_form_witness :
  map temp (map fst (fst (loop COLORSHIFT (mk_state 40 20)
                            [no_cpu_snapshot; no_cpu_snapshot]))) =
  map (fun k => 0 + (40 - 0) / 2 ^ S k) (seq 0 2).
Proof.
  apply (smoothing_closed_form COLORSHIFT 0 (mk_state 40 20)
           [no_cpu_snapshot; no_cpu_snapshot]).
  exact constant_reads_no_cpu.
Defined.

Lemma cputemp_nonneg (temps : sensors) (t : R) :
  cputemp temps = ret t -> 0 <= t.
Proof.
  destruct temps as [| grp temps]; [discriminate |].
  intros H. apply ret_inj in H. subst t.
  destruct (scan_groups_spec (grp :: temps) 0) as (Hge & _). exact Hge.
Qed.

Lemma loop_state_bounds (cs hi : R) (reads : list sensors) :
  forall st,
    0 <= temp st -> 0 <= offset st <= hi ->
    Forall (fun s => 0 <= temp s /\ 0 <= offset s <= hi)
      (map fst (fst (loop cs st reads))).
Proof.
  induction reads as [| temps rest IH]; intros st Ht Ho; [constructor |].
  destruct (loop_body_cases cs st temps) as [(st' & color & Hb) | (e & Hb)].
  - rewrite (loop_step_ok _ _ _ _ rest _ Hb). cbn [fst map].
    apply loop_body_inv in Hb.
    destruct Hb as (sample & Hs & Ht' & Ho' & _).
    apply cputemp_nonneg in Hs.
    assert (Hst' : 0 <= temp st' /\ 0 <= offset st' <= hi).
    { rewrite Ht', Ho'. unfold Rmin.
      destruct (Rle_dec (offset st) (temp st)); lra. }
    constructor; [exact Hst' |]. apply IH; tauto.
  - rewrite (loop_step_err _ _ _ rest _ Hb). constructor.
Qed.

(** X17: in every state the program reaches, the smoothed temperature is
    at least 0 and the offset lies between 0 and 20. *)
Theorem state_bounds (first : sensors) (reads : list sensors) :
  Forall (fun s => 0 <= temp s /\ 0 <= offset s <= 20)
    (map fst (fst (cputemp2rgb first reads))).
Proof.
  unfold cputemp2rgb. destruct (cputemp first) as [e | t] eqn:Hfirst;
    [constructor |].
  apply cputemp_nonneg in Hfirst.
  apply loop_state_bounds; cbn [temp offset]; lra.
Qed.

Lemma loop_steady (s : R) (reads : list sensors) :
  constant_reads s reads ->
  forall st,
    temp st = s -> Rmin (offset st) s = Rmin 20 s ->
    Forall (fun p => temp (fst p) = s /\ offset (fst p) = Rmin 20 s /\
                     ColorModel (Rmax (s - 20) 0) = ret (snd p))
      (fst (loop COLORSHIFT st reads)).
Proof.
  induction 1 as [| temps rest Hs _ IH]; intros st Ht Ho; [constructor |].
  destruct (loop_body_constant COLORSHIFT s st temps Hs) as (color & Hb & Hc).
  rewrite (loop_step_ok _ _ _ _ rest _ Hb). cbn [fst].
  rewrite Ht, Ho in Hc.
  assert (Hout : (s + s) / 2 - Rmin 20 s + COLORSHIFT = Rmax (s - 20) 0).
  { unfold COLORSHIFT, Rmin, Rmax.
    destruct (Rle_dec 20 s), (Rle_dec (s - 20) 0); lra. }
  rewrite Hout in Hc.
  constructor.
  - cbn [fst snd temp offset]. rewrite Ht, Ho.
    split; [lra |]. split; [reflexivity | exact Hc].
  - apply IH; cbn [temp offset]; rewrite Ht, ?Ho; [lra |].
    unfold Rmin. destruct (Rle_dec 20 s), (Rle_dec 20 s); try lra;
      destruct (Rle_dec s s); lra.
Qed.

(** X18: steady state.  If the reader returns the same temperature s at
    start-up and in every iteration, then every iteration leaves
    temp = s and offset = min(20, s) and writes the same colour, the
    colour model at max(s - 20, 0); at s = 86 that colour is pure
    white. *)
Theorem steady_state_color (s : R) (first : sensors) (reads : list sensors) :
  cputemp first = ret s ->
  constant_reads s reads ->
  Forall (fun p => temp (fst p) = s /\ offset (fst p) = Rmin 20 s /\
                   ColorModel (Rmax (s - 20) 0) = ret (snd p))
    (fst (cputemp2rgb first reads)) /\
  List.length (fst (cputemp2rgb first reads)) = List.length reads /\
  (s = 86 -> Forall (fun p => snd p = white) (fst (cputemp2rgb first reads))).
Proof.
  intros Hfirst Hconst.
  assert (Hall : Forall (fun p => temp (fst p) = s /\ offset (fst p) = Rmin 20 s /\
                   ColorModel (Rmax (s - 20) 0) = ret (snd p))
                  (fst (cputemp2rgb first reads))).
  { unfold cputemp2rgb. rewrite Hfirst. unfold ret.
    apply loop_steady; [exact Hconst | reflexivity | reflexivity]. }
  split; [exact Hall |]. split.
  - unfold cputemp2rgb. rewrite Hfirst. unfold ret.
    apply loop_runs. eapply Forall_impl; [| exact Hconst].
    intros temps Hs ->. discriminate.
  - intros ->. eapply Forall_impl; [| exact Hall].
    intros p (_ & _ & Hc).
    assert (Hmax : Rmax (86 - 20) 0 = 66).
    { unfold Rmax. destruct (Rle_dec (86 - 20) 0); lra. }
    rewrite Hmax, ColorModel_at_66 in Hc. apply ret_inj in Hc.
    symmetry. exact Hc.
Qed.

Lemma cputemp_one_core_86 : cputemp (one_core 86) = ret 86.
Proof.
  rewrite cputemp_one_core. destruct (Rgt_dec 86 0); [reflexivity | lra].
Qed.

Lemma steady_state_color_witness :
  Forall (fun p => temp (fst p) = 86 /\ offset (fst p) = Rmin 20 86 /\
                   ColorModel (Rmax (86 - 20) 0) = ret (snd p))
    (fst (cputemp2rgb (one_core 86) [one_core 86; one_core 86])) /\
  List.length (fst (cputemp2rgb (one_core 86) [one_core 86; one_core 86])) =
    2%nat /\
  (86 = 86 ->
   Forall (fun p => snd p = white)
     (fst (cputemp2rgb (one_core 86) [one_core 86; one_core 86]))).
Proof.
  apply (steady_state_color 86 (one_core 86) [one_core 86; one_core 86]).
  - exact cputemp_one_core_86.
  - repeat constructor; exact cputemp_one_core_86.
Defined.
